(** * Task Management System: the React front end (frontend/src/App.js)

    A shallow embedding of the [App] component's state and of its four
    asynchronous event handlers ([fetchTasks], [addTask], [toggleTask],
    [deleteTask]), followed by the properties of the client-side
    synchronisation contract.

    Each handler is a program over two kinds of effects: writes to the
    component's four [useState] cells, and [await fetch(...)], where the
    handler suspends until the network settles the request.  A handler never
    reads a state cell back: it sees the values captured by the render that
    created it.  *)

From Stdlib Require Import NArith ZArith String Ascii.
From stdpp Require Import base tactics option list.

Set Default Proof Using "Type".

(** ** JavaScript strings *)

(** A JavaScript string is a sequence of UTF-16 code units. *)
Definition JsString : Type := list N.

(** A string literal of the source (ASCII only). *)
Definition str (s : string) : JsString :=
  N_of_ascii <$> list_ascii_of_string s.
Arguments str s%_string.

(** ECMA-262 WhiteSpace and LineTerminator code points, the characters that
    [String.prototype.trim] strips. *)
Definition isWhiteSpace (c : N) : bool :=
  match c with
  | 9 | 10 | 11 | 12 | 13 | 32 | 160 | 5760
  | 8232 | 8233 | 8239 | 8287 | 12288 | 65279 => true
  | _ => (8192 <=? c) && (c <=? 8202)
  end%N.

Fixpoint trimStart (s : JsString) : JsString :=
  match s with
  | c :: s' => if isWhiteSpace c then trimStart s' else s
  | [] => []
  end.

Definition trimEnd (s : JsString) : JsString :=
  reverse (trimStart (reverse s)).

Definition trim (s : JsString) : JsString := trimEnd (trimStart s).

(** [!s] on a string: only the empty string is falsy. *)
Definition not_str (s : JsString) : bool :=
  match s with [] => true | _ :: _ => false end.

(** ** Data model *)

(** A task identifier as it comes out of [JSON.parse]: a number or a string.
    [===] on two identifiers is equality of type and value. *)
Inductive Id : Type :=
| IdNum (n : Z)
| IdStr (s : JsString).

#[global] Instance Id_eq_dec : EqDecision Id.
Proof. solve_decision. Defined.

Module Task.
Record t : Type := mk { id : Id; title : JsString; completed : bool }.
End Task.

#[global] Instance Task_eq_dec : EqDecision Task.t.
Proof. solve_decision. Defined.

(** The four [useState] cells of [App]. [error] is [null] or a string. *)
Module State.
Record t : Type := mk {
  tasks : list Task.t;
  newTask : JsString;
  loading : bool;
  error : option JsString;
}.

(** [useState([])], [useState('')], [useState(false)], [useState(null)]. *)
Definition initial : t :=
  {| tasks := []; newTask := []; loading := false; error := None |}.
End State.

(** The setters returned by [useState]. *)
Inductive Update : Type :=
| SetTasks (ts : list Task.t)
| SetNewTask (s : JsString)
| SetLoading (b : bool)
| SetError (e : option JsString).

Definition apply_update (w : Update) (s : State.t) : State.t :=
  match w with
  | SetTasks ts => State.mk ts (State.newTask s) (State.loading s) (State.error s)
  | SetNewTask v => State.mk (State.tasks s) v (State.loading s) (State.error s)
  | SetLoading b => State.mk (State.tasks s) (State.newTask s) b (State.error s)
  | SetError e => State.mk (State.tasks s) (State.newTask s) (State.loading s) e
  end.

(** ** The network *)

(** A thrown value; the handlers only ever read its [message]. *)
Record JsError : Type := Error { message : JsString }.

(** How a promise settles. *)
Inductive Settled (A : Type) : Type :=
| Fulfilled (a : A)
| Rejected (e : JsError).
Arguments Fulfilled {A} a.
Arguments Rejected {A} e.

(** What [fetch] resolves to: [response.ok] (status in 200..299) and how
    [response.json()] settles for this body. *)
Record Response (B : Type) : Type := mkResponse {
  ok : bool;
  json : Settled B;
}.
Arguments mkResponse {B} ok json.
Arguments ok {B} r.
Arguments json {B} r.

(** The four [fetch] calls of the source, indexed by the shape of the JSON
    body the handler expects back.  A body that parses is taken to have the
    shape the handler uses it at: an array of tasks for the list, one task
    for a create or an update.  Everything else the server can send is a
    response that is not [ok], or a body on which [response.json()]
    rejects. *)
Inductive Call : Type → Type :=
| GET_tasks : Call (list Task.t)
    (* fetch(`${API_URL}/api/tasks`) *)
| POST_tasks (title : JsString) (completed : bool) : Call Task.t
    (* method 'POST', body JSON.stringify({ title, completed }) *)
| PUT_task (id : Id) (completed : bool) : Call Task.t
    (* fetch(`${API_URL}/api/tasks/${id}`), method 'PUT',
       body JSON.stringify({ completed }) *)
| DELETE_task (id : Id) : Call unit.
    (* fetch(`${API_URL}/api/tasks/${id}`), method 'DELETE'; body never read *)

(** The request as it goes on the wire. *)
Inductive Method : Type := GET | POST | PUT | DELETE.
Inductive Path : Type := api_tasks | api_tasks_id (id : Id).
Inductive Payload : Type :=
| NewTaskBody (title : JsString) (completed : bool)
| CompletedBody (completed : bool).
Record Request : Type := mkRequest {
  method : Method;
  path : Path;
  headers : list (JsString * JsString);
  body : option Payload;
}.

(** [headers: { 'Content-Type': 'application/json' }] *)
Definition json_headers : list (JsString * JsString) :=
  [(str "Content-Type", str "application/json")].

Definition wire {B} (c : Call B) : Request :=
  match c with
  | GET_tasks => mkRequest GET api_tasks [] None
  | POST_tasks ti co =>
      mkRequest POST api_tasks json_headers (Some (NewTaskBody ti co))
  | PUT_task i co =>
      mkRequest PUT (api_tasks_id i) json_headers (Some (CompletedBody co))
  | DELETE_task i => mkRequest DELETE (api_tasks_id i) [] None
  end.

(** The world outside the client: how each call settles. *)
Definition Network : Type := ∀ B, Call B → Settled (Response B).

(** ** Handler programs *)

Inductive Prog (A : Type) : Type :=
| Ret (a : A)
| Throw (e : JsError)
| Do (w : Update) (k : Prog A)
| Fetch {B} (c : Call B) (k : Settled (Response B) → Prog A).
Arguments Ret {A} a.
Arguments Throw {A} e.
Arguments Do {A} w k.
Arguments Fetch {A B} c k.

Fixpoint bind {A C} (p : Prog A) (f : A → Prog C) : Prog C :=
  match p with
  | Ret a => f a
  | Throw e => Throw e
  | Do w k => Do w (bind k f)
  | Fetch c k => Fetch c (λ r, bind (k r) f)
  end.

#[global] Instance Prog_ret : MRet Prog := @Ret.
#[global] Instance Prog_bind : MBind Prog := λ A C f p, bind p f.

(** [try { p } catch (err) { h err }] *)
Fixpoint try_catch {A} (p : Prog A) (h : JsError → Prog A) : Prog A :=
  match p with
  | Ret a => Ret a
  | Throw e => h e
  | Do w k => Do w (try_catch k h)
  | Fetch c k => Fetch c (λ r, try_catch (k r) h)
  end.

(** [try { p } finally { f }]: [f] runs on both exits, then the completion
    of [p] is resumed. *)
Fixpoint try_finally {A} (p : Prog A) (f : Prog unit) : Prog A :=
  match p with
  | Ret a => bind f (λ _, Ret a)
  | Throw e => bind f (λ _, Throw e)
  | Do w k => Do w (try_finally k f)
  | Fetch c k => Fetch c (λ r, try_finally (k r) f)
  end.

Definition setTasks (ts : list Task.t) : Prog unit := Do (SetTasks ts) (Ret tt).
Definition setNewTask (s : JsString) : Prog unit := Do (SetNewTask s) (Ret tt).
Definition setLoading (b : bool) : Prog unit := Do (SetLoading b) (Ret tt).
Definition setError (e : option JsString) : Prog unit := Do (SetError e) (Ret tt).

(** [await p]: the value of a fulfilled promise; a rejection is thrown. *)
Definition await {A} (p : Settled A) : Prog A :=
  match p with
  | Fulfilled a => Ret a
  | Rejected e => Throw e
  end.

(** [await fetch(...)] *)
Definition fetch {B} (c : Call B) : Prog (Response B) := Fetch c await.

(** [if (!response.ok) throw new Error(msg);] *)
Definition check_ok {B} (response : Response B) (msg : JsString) : Prog unit :=
  if negb (ok response) then Throw (Error msg) else Ret tt.

(** ** The handlers of [App] *)

Section App.
(** The values of the render that created the handlers. *)
Variables (tasks : list Task.t) (newTask : JsString).

Definition fetchTasks : Prog unit :=
  setLoading true;;
  setError None;;
  try_finally
    (try_catch
       (response ← fetch GET_tasks;
        check_ok response (str "Failed to fetch tasks");;
        data ← await (json response);
        setTasks data)
       (λ err, setError (Some (message err))))
    (setLoading false).

(** [e.preventDefault()] only concerns the browser's form submission and is
    left out. *)
Definition addTask : Prog unit :=
  if not_str (trim newTask) then Ret tt else
  setLoading true;;
  setError None;;
  try_finally
    (try_catch
       (response ← fetch (POST_tasks newTask false);
        check_ok response (str "Failed to add task");;
        data ← await (json response);
        setTasks (tasks ++ [data]);;
        setNewTask [])  (* setNewTask('') *)
       (λ err, setError (Some (message err))))
    (setLoading false).

Definition toggleTask (id : Id) (completed : bool) : Prog unit :=
  setError None;;
  try_catch
    (response ← fetch (PUT_task id (negb completed));
     check_ok response (str "Failed to update task");;
     data ← await (json response);
     setTasks ((λ t, if decide (Task.id t = id) then data else t) <$> tasks))
    (λ err, setError (Some (message err))).

Definition deleteTask (id : Id) : Prog unit :=
  setError None;;
  try_catch
    (response ← fetch (DELETE_task id);
     check_ok response (str "Failed to delete task");;
     setTasks (filter (λ t, Task.id t ≠ id) tasks))
    (λ err, setError (Some (message err))).
End App.

(** ** Running a handler *)

(** How an [async] handler ends: its promise is fulfilled, or an error
    escapes and the promise is rejected. *)
Inductive Completion (A : Type) : Type :=
| Normal (a : A)
| Abrupt (e : JsError).
Arguments Normal {A} a.
Arguments Abrupt {A} e.

(** A handler runs synchronously up to its next [await fetch(...)]. *)
Inductive Paused (A : Type) : Type :=
| Finished (c : Completion A)
| Waiting {B} (c : Call B) (k : Settled (Response B) → Prog A).
Arguments Finished {A} c.
Arguments Waiting {A B} c k.

Fixpoint advance {A} (p : Prog A) (s : State.t) : State.t * Paused A :=
  match p with
  | Ret a => (s, Finished (Normal a))
  | Throw e => (s, Finished (Abrupt e))
  | Do w k => advance k (apply_update w s)
  | Fetch c k => (s, Waiting c k)
  end.

(** A whole run against a given network: the final state, the completion,
    and every request sent together with the state at the moment it left. *)
Record Outcome (A : Type) : Type := mkOutcome {
  final : State.t;
  completion : Completion A;
  sent : list (Request * State.t);
}.
Arguments mkOutcome {A} final completion sent.
Arguments final {A} o.
Arguments completion {A} o.
Arguments sent {A} o.

Fixpoint run {A} (net : Network) (p : Prog A) (s : State.t) : Outcome A :=
  match p with
  | Ret a => mkOutcome s (Normal a) []
  | Throw e => mkOutcome s (Abrupt e) []
  | Do w k => run net k (apply_update w s)
  | Fetch c k =>
      let o := run net (k (net _ c)) s in
      mkOutcome (final o) (completion o) ((wire c, s) :: sent o)
  end.

(** ** The operations of the synchroniser *)

Inductive Op : Type :=
| Op_List
| Op_Create
| Op_Toggle (id : Id) (currentCompleted : bool)
| Op_Delete (id : Id).

(** The handler that the render of state [r] binds to each operation. *)
Definition handler (op : Op) (r : State.t) : Prog unit :=
  match op with
  | Op_List => fetchTasks
  | Op_Create => addTask (State.tasks r) (State.newTask r)
  | Op_Toggle id c => toggleTask (State.tasks r) id c
  | Op_Delete id => deleteTask (State.tasks r) id
  end.

(** One operation at a time: the handler of the current render runs to
    completion on the current state. *)
Definition perform (net : Network) (op : Op) (s : State.t) : Outcome unit :=
  run net (handler op s) s.

(** How the network treated a request, as far as the handlers can tell. *)
Inductive Reply : Type :=
| Unreachable (e : JsError)   (* fetch rejected *)
| NonOk                       (* a response outside 200..299 *)
| Malformed (e : JsError)     (* 2xx, but response.json() rejects *)
| WellFormed.                 (* 2xx and a body that parses *)

Definition classify {B} (a : Settled (Response B)) : Reply :=
  match a with
  | Rejected e => Unreachable e
  | Fulfilled r =>
      if ok r then
        match json r with
        | Rejected e => Malformed e
        | Fulfilled _ => WellFormed
        end
      else NonOk
  end.

(** The reply to the request at which [p] first suspends, if it sends one. *)
Definition answer {A} (net : Network) (p : Prog A) (s : State.t) : option Reply :=
  match advance p s with
  | (_, Waiting c _) => Some (classify (net _ c))
  | (_, Finished _) => None
  end.

(** The four fixed messages, by operation. *)
Definition fixed_message (op : Op) : JsString :=
  match op with
  | Op_List => str "Failed to fetch tasks"
  | Op_Create => str "Failed to add task"
  | Op_Toggle _ _ => str "Failed to update task"
  | Op_Delete _ => str "Failed to delete task"
  end.

(** Delete is the one operation that never parses the response body. *)
Definition reads_body (op : Op) : bool :=
  match op with Op_Delete _ => false | _ => true end.

(** An operation fails when its request is rejected, when the response is
    not 2xx, or when a body it parses is malformed. *)
Definition failed (op : Op) (r : Reply) : bool :=
  match r with
  | Unreachable _ | NonOk => true
  | Malformed _ => reads_body op
  | WellFormed => false
  end.

(** ** Overlapping operations

    Nothing serialises the handlers: while one is suspended at its request
    the user can start another.  The system state is the store shared by all
    renders plus the suspended handlers, each with the request it waits for
    and its continuation (which carries the values its render captured). *)

Record Suspended : Type := mkSuspended {
  body_type : Type;
  call : Call body_type;
  kont : Settled (Response body_type) → Prog unit;
}.

Module Sys.
Record t : Type := mk {
  store : State.t;
  pending : list Suspended;
}.
End Sys.

(** Start a handler, or resume a continuation, and let it run to its next
    suspension. *)
Definition launch (p : Prog unit) (σ : Sys.t) : Sys.t :=
  match advance p (Sys.store σ) with
  | (s1, Finished _) => Sys.mk s1 (Sys.pending σ)
  | (s1, Waiting c k) => Sys.mk s1 (Sys.pending σ ++ [mkSuspended _ c k])
  end.

(** The requests of List and Create. *)
Definition busy_call {B} (c : Call B) : bool :=
  match c with
  | GET_tasks | POST_tasks _ _ => true
  | PUT_task _ _ | DELETE_task _ => false
  end.

Definition list_or_create (p : Suspended) : bool := busy_call (call p).

(** The events of the rendered page.  The text input and the submit button
    carry [disabled={loading}], so the form can only be submitted while
    [loading] is false; checkboxes and delete buttons are never disabled.
    Typing, toggling and deleting are allowed here with any argument, which
    covers what the page offers. *)
Inductive step : Sys.t → Sys.t → Prop :=
| step_change σ v :                      (* onChange: setNewTask(e.target.value) *)
    step σ (Sys.mk (apply_update (SetNewTask v) (Sys.store σ)) (Sys.pending σ))
| step_submit σ :                        (* onSubmit={addTask} *)
    State.loading (Sys.store σ) = false →
    step σ (launch (handler Op_Create (Sys.store σ)) σ)
| step_toggle σ id completed :           (* onChange: toggleTask(task.id, task.completed) *)
    step σ (launch (handler (Op_Toggle id completed) (Sys.store σ)) σ)
| step_delete σ id :                     (* onClick: deleteTask(task.id) *)
    step σ (launch (handler (Op_Delete id) (Sys.store σ)) σ)
| step_settle σ l1 p l2 a :              (* the network settles a request *)
    Sys.pending σ = l1 ++ p :: l2 →
    step σ (launch (kont p a) (Sys.mk (Sys.store σ) (l1 ++ l2))).

(** The first render, before the effect has run. *)
Definition first_render : Sys.t := Sys.mk State.initial [].

(** [useEffect(() => { fetchTasks(); }, [])]: once, after the first render. *)
Definition mounted : Sys.t := launch fetchTasks first_render.

Inductive reachable : Sys.t → Prop :=
| reach_first_render : reachable first_render
| reach_mounted : reachable mounted
| reach_step σ σ' : reachable σ → step σ σ' → reachable σ'.

(** ** The invariant behind the busy flag *)

(** List and Create are the operations whose request is a [busy_call]. *)
Definition sets_busy (op : Op) : bool :=
  match op with
  | Op_List | Op_Create => true
  | Op_Toggle _ _ | Op_Delete _ => false
  end.

(** A suspended handler is well behaved when, however its request settles,
    it runs to its end without another request, and leaves [loading] false if
    it is a List or a Create, untouched otherwise. *)
Definition well_behaved (p : Suspended) : Prop :=
  ∀ a s, ∃ s' c,
    advance (kont p a) s = (s', Finished c) ∧
    State.loading s' = (if list_or_create p then false else State.loading s).

Definition outstanding (l : list Suspended) : nat :=
  length (filter (λ p, list_or_create p = true) l).

Definition busy_invariant (σ : Sys.t) : Prop :=
  Forall well_behaved (Sys.pending σ) ∧
  outstanding (Sys.pending σ) = (if State.loading (Sys.store σ) then 1 else 0).

(** ** Sample data *)

Definition task_a : Task.t := Task.mk (IdNum 1) (str "a") false.
Definition task_a_done : Task.t := Task.mk (IdNum 1) (str "a") true.
Definition task_milk : Task.t := Task.mk (IdNum 2) (str "buy milk") false.

(** One task held, "buy milk" typed, and an error left by an earlier
    operation. *)
Definition typing_milk : State.t :=
  State.mk [task_a] (str "buy milk") false (Some (str "Failed to delete task")).

(** Two tasks held, only blanks typed. *)
Definition typing_blanks : State.t :=
  State.mk [task_a; task_milk] (str "   ") false (Some (str "Failed to add task")).

(** A server that accepts everything.  It holds [task_a], gives a new task
    the id 2, returns the full task on update, and answers a delete with an
    empty body. *)
Definition server : Network := λ B c,
  match c in Call B return Settled (Response B) with
  | GET_tasks => Fulfilled (mkResponse true (Fulfilled [task_a]))
  | POST_tasks title completed =>
      Fulfilled (mkResponse true (Fulfilled (Task.mk (IdNum 2) title completed)))
  | PUT_task id completed =>
      Fulfilled (mkResponse true (Fulfilled (Task.mk id (str "a") completed)))
  | DELETE_task _ =>
      Fulfilled (mkResponse true (Rejected (Error (str "Unexpected end of JSON input"))))
  end.

(** No route to the server: [fetch] rejects with the browser's TypeError. *)
Definition offline : Network := λ B c,
  Rejected (Error (str "Failed to fetch")).

(** The server answers 500. *)
Definition refusing : Network := λ B c,
  Fulfilled (mkResponse false (Rejected (Error (str "Unexpected end of JSON input")))).

(** The server answers 200 with an empty body, on which [response.json()]
    rejects with a SyntaxError. *)
Definition garbled : Network := λ B c,
  Fulfilled (mkResponse true (Rejected (Error (str "Unexpected end of JSON input")))).

(** The network settles the oldest outstanding request as [net] says. *)
Definition settle_head (net : Network) (σ : Sys.t) : Sys.t :=
  match Sys.pending σ with
  | p :: l => launch (kont p (net _ (call p))) (Sys.mk (Sys.store σ) l)
  | [] => σ
  end.

(** A session: the page mounts, the first List succeeds, the user types
    "buy milk" and submits, then ticks the checkbox of task 1 while the
    Create is still outstanding. *)
Definition listed : Sys.t := settle_head server mounted.
Definition typed : Sys.t :=
  Sys.mk (apply_update (SetNewTask (str "buy milk")) (Sys.store listed))
         (Sys.pending listed).
Definition submitted : Sys.t := launch (handler Op_Create (Sys.store typed)) typed.
Definition ticked : Sys.t :=
  launch (handler (Op_Toggle (IdNum 1) false) (Sys.store submitted)) submitted.

(** ** The rendered page

    What [App] returns for the current values of the four state cells, as
    far as it depends on them: the error banner, the form, the heading and
    the task list, with the handlers this render binds to their events.
    The header and the footer are constant text. *)

(** One [<li>] of the task list. *)
Record TaskItem : Type := mkTaskItem {
  key : Id;                        (* key={task.id} *)
  className : JsString;            (* `task-item ${task.completed ? 'completed' : ''}` *)
  checked : bool;                  (* checked={task.completed} *)
  checkbox_onChange : Prog unit;   (* () => toggleTask(task.id, task.completed) *)
  task_title : JsString;           (* {task.title} *)
  delete_onClick : Prog unit;      (* () => deleteTask(task.id) *)
}.

(** What stands below the heading. *)
Inductive TasksBody : Type :=
| Loading_div                      (* <div className="loading">Loading tasks...</div> *)
| Empty_state                      (* <div className="empty-state">...</div> *)
| Task_list (items : list TaskItem).

(** The two texts of the submit button. *)
Inductive ButtonLabel : Type := Adding | Add_Task.

Record Page : Type := mkPage {
  error_banner : option JsString;  (* the text of the banner, when there is one *)
  form_onSubmit : Prog unit;
  input_value : JsString;
  input_onChange : JsString → Prog unit;
  input_disabled : bool;
  button_disabled : bool;
  button_label : ButtonLabel;
  heading_count : nat;             (* Tasks ({tasks.length}) *)
  tasks_body : TasksBody;
}.

Definition render_item (tasks : list Task.t) (task : Task.t) : TaskItem :=
  {| key := Task.id task;
     className :=
       str "task-item " ++ (if Task.completed task then str "completed" else []);
     checked := Task.completed task;
     checkbox_onChange := toggleTask tasks (Task.id task) (Task.completed task);
     task_title := Task.title task;
     delete_onClick := deleteTask tasks (Task.id task) |}.

Definition App (s : State.t) : Page :=
  let tasks := State.tasks s in
  let newTask := State.newTask s in
  let loading := State.loading s in
  let error := State.error s in
  {| error_banner :=               (* {error && (...)}: null and '' show nothing *)
       match error with
       | Some m => if not_str m then None else Some m
       | None => None
       end;
     form_onSubmit := addTask tasks newTask;
     input_value := newTask;
     input_onChange := λ value, setNewTask value;
     input_disabled := loading;
     button_disabled := loading;
     button_label := if loading then Adding else Add_Task;
     heading_count := length tasks;
     tasks_body :=
       if loading && bool_decide (length tasks = 0) then Loading_div
       else if bool_decide (length tasks = 0) then Empty_state
       else Task_list (render_item tasks <$> tasks) |}.

(** The events the rendered page can fire.  A disabled input takes no
    change and a form whose submit button is disabled is not submitted;
    checkboxes and delete buttons exist only for the items listed. *)
Inductive page_step : Sys.t → Sys.t → Prop :=
| page_change σ value :
    input_disabled (App (Sys.store σ)) = false →
    page_step σ (launch (input_onChange (App (Sys.store σ)) value) σ)
| page_submit σ :
    button_disabled (App (Sys.store σ)) = false →
    page_step σ (launch (form_onSubmit (App (Sys.store σ))) σ)
| page_tick σ items item :
    tasks_body (App (Sys.store σ)) = Task_list items →
    item ∈ items →
    page_step σ (launch (checkbox_onChange item) σ)
| page_delete σ items item :
    tasks_body (App (Sys.store σ)) = Task_list items →
    item ∈ items →
    page_step σ (launch (delete_onClick item) σ)
| page_settle σ l1 p l2 a :
    Sys.pending σ = l1 ++ p :: l2 →
    page_step σ (launch (kont p a) (Sys.mk (Sys.store σ) (l1 ++ l2))).

(** ** Operations one after another, and overlapping *)

(** The user types [value] and submits. *)
Definition type_and_submit (net : Network) (s : State.t) (value : JsString) : State.t :=
  final (perform net Op_Create (final (run net (setNewTask value) s))).

(** The network settles the request at position [i] of the outstanding
    ones as [net] says. *)
Definition settle_at (net : Network) (i : nat) (σ : Sys.t) : Sys.t :=
  match Sys.pending σ !! i with
  | Some p =>
      launch (kont p (net _ (call p)))
             (Sys.mk (Sys.store σ) (delete i (Sys.pending σ)))
  | None => σ
  end.

(** Two operations started one right after the other from a quiet page,
    before either request has settled. *)
Definition both_started (op1 op2 : Op) (s : State.t) : Sys.t :=
  let σ1 := launch (handler op1 s) (Sys.mk s []) in
  launch (handler op2 (Sys.store σ1)) σ1.

(** The tasks a response body carries. *)
Definition body_tasks {B} (c : Call B) : B → list Task.t :=
  match c with
  | GET_tasks => λ data, data
  | POST_tasks _ _ => λ data, [data]
  | PUT_task _ _ => λ data, [data]
  | DELETE_task _ => λ _, []
  end.

Definition served {B} (c : Call B) (a : Settled (Response B)) : list Task.t :=
  match a with
  | Fulfilled r =>
      match json r with
      | Fulfilled data => body_tasks c data
      | Rejected _ => []
      end
  | Rejected _ => []
  end.

(** The one request an operation sends from the render of [s]; a Create
    with a blank title sends none. *)
Definition request_of (op : Op) (s : State.t) : list Request :=
  match op with
  | Op_List => [mkRequest GET api_tasks [] None]
  | Op_Create =>
      if not_str (trim (State.newTask s)) then []
      else [mkRequest POST api_tasks json_headers
              (Some (NewTaskBody (State.newTask s) false))]
  | Op_Toggle id currentCompleted =>
      [mkRequest PUT (api_tasks_id id) json_headers
         (Some (CompletedBody (negb currentCompleted)))]
  | Op_Delete id => [mkRequest DELETE (api_tasks_id id) [] None]
  end.

(** More sample data: a rejection whose error has an empty message. *)
Definition silent : Network := λ B c, Rejected (Error []).

(** ** A response that arrives later *)

(** The handler of [op] bound by the render of [r] has sent its request;
    by the time the response arrives the store has become [s], which other
    operations may have written meanwhile.  The rest of the handler runs on
    [s]. *)
Definition respond (net : Network) (op : Op) (r s : State.t) : Outcome unit :=
  match advance (handler op r) r with
  | (_, Waiting c k) => run net (k (net _ c)) s
  | (_, Finished cpl) => mkOutcome s cpl []
  end.

(** A server like [server] that gives the next new task the id [n]. *)
Definition server_assigning (n : Z) : Network := λ B c,
  match c in Call B return Settled (Response B) with
  | GET_tasks => server _ GET_tasks
  | POST_tasks title completed =>
      Fulfilled (mkResponse true (Fulfilled (Task.mk (IdNum n) title completed)))
  | PUT_task id completed => server _ (PUT_task id completed)
  | DELETE_task id => server _ (DELETE_task id)
  end.

(** The page after the first List, with nothing typed and nothing
    outstanding. *)
Definition quiet : State.t := Sys.store listed.

(** ** Tactics *)

(** Unfold an operation down to the effects of its handler. *)
Ltac unfold_handler :=
  unfold perform, answer, handler, fetchTasks, addTask, toggleTask, deleteTask.

(** Case analysis on how the network settled the request [c]. *)
Ltac settle_cases net c :=
  let r := fresh "r" in
  let e := fresh "e" in
  let d := fresh "data" in
  destruct (net _ c) as [[[] [d|e]]|e]; simpl.

(** ** Basic facts about running programs *)

Lemma run_advance {A} (net : Network) (p : Prog A) (s : State.t) :
  run net p s =
  match advance p s with
  | (s1, Finished c) => mkOutcome s1 c []
  | (s1, Waiting c k) =>
      let o := run net (k (net _ c)) s1 in
      mkOutcome (final o) (completion o) ((wire c, s1) :: sent o)
  end.
Proof.
  revert s. induction p as [a|e|w k IH|B c k IH]; intros s; simpl; auto.
Qed.

Lemma not_str_true (s : JsString) : not_str s = true ↔ s = [].
Proof. destruct s; simpl; split; intros; congruence. Qed.

Lemma addTask_blank (tasks : list Task.t) (newTask : JsString) :
  trim newTask = [] → addTask tasks newTask = Ret tt.
Proof. intros E. unfold addTask. by rewrite E. Qed.

Lemma not_blank (newTask : JsString) :
  trim newTask ≠ [] → not_str (trim newTask) = false.
Proof.
  intros E. destruct (not_str (trim newTask)) eqn:H; [|done].
  by apply not_str_true in H.
Qed.

Lemma filter_none_matches (id : Id) (l : list Task.t) :
  (∀ t, t ∈ l → Task.id t ≠ id) → filter (λ t, Task.id t ≠ id) l = l.
Proof.
  induction l as [|t l IH]; intros H; [done|].
  rewrite filter_cons_True by (apply H; left).
  f_equal. apply IH. intros t' Ht'. apply H. by right.
Qed.


Lemma filter_removes_some (id : Id) (l : list Task.t) :
  (∃ t, t ∈ l ∧ Task.id t = id) →
  length (filter (λ t, Task.id t ≠ id) l) < length l.
Proof.
  induction l as [|t l IH]; intros (t' & Hin & Hid).
  - by apply elem_of_nil in Hin.
  - destruct (decide (Task.id t = id)) as [E|E].
    + rewrite filter_cons_False by naive_solver. simpl.
      pose proof (length_filter (λ t, Task.id t ≠ id) l). lia.
    + rewrite filter_cons_True by done. simpl.
      apply elem_of_cons in Hin as [->|Hin]; [done|].
      assert (length (filter (λ t, Task.id t ≠ id) l) < length l)
        by (apply IH; eauto).
      lia.
Qed.

(** ** Create *)

(** C3. A successful Create with a title that does not trim to the empty
    string appends the task returned by the server at the end of the
    collection (the tasks held before stay as they were, in their order),
    empties the input buffer and leaves busy false. *)
Theorem create_success_appends (net : Network) (s : State.t) (data : Task.t) :
  trim (State.newTask s) ≠ [] →
  net _ (POST_tasks (State.newTask s) false)
    = Fulfilled (mkResponse true (Fulfilled data)) →
  let s' := final (perform net Op_Create s) in
  State.tasks s' = State.tasks s ++ [data] ∧
  State.newTask s' = [] ∧
  State.loading s' = false.
Proof.
  intros Hnb Hnet. unfold_handler.
  rewrite (not_blank _ Hnb). simpl. rewrite Hnet. simpl. auto.
Qed.

(** C4. When the input buffer trims to the empty string, Create does
    nothing: no request is sent and the collection, the input buffer, the
    busy flag and the error value are what they were. *)
Theorem create_blank_is_noop (net : Network) (s : State.t) :
  trim (State.newTask s) = [] →
  perform net Op_Create s = mkOutcome s (Normal tt) [].
Proof.
  intros E. unfold perform, handler. by rewrite addTask_blank.
Qed.

(** ** Toggle *)

(** C5. Toggle on a collection that holds a task with the given id: on
    success every task with that id is replaced by the task object the
    server returned and every other task is unchanged; whatever the outcome,
    the collection keeps its length. *)
Theorem toggle_replaces_matching
    (net : Network) (s : State.t) (id : Id) (currentCompleted : bool) :
  (∃ t, t ∈ State.tasks s ∧ Task.id t = id) →
  let s' := final (perform net (Op_Toggle id currentCompleted) s) in
  (∀ data,
     net _ (PUT_task id (negb currentCompleted))
       = Fulfilled (mkResponse true (Fulfilled data)) →
     (∀ i t, State.tasks s !! i = Some t →
        (Task.id t = id → State.tasks s' !! i = Some data) ∧
        (Task.id t ≠ id → State.tasks s' !! i = Some t)) ∧
     data ∈ State.tasks s') ∧
  length (State.tasks s') = length (State.tasks s).
Proof.
  intros (t0 & Hin & Hid). unfold_handler. simpl. split.
  - intros data ->. simpl. split.
    + intros i t Hi. rewrite list_lookup_fmap, Hi. simpl.
      split; intros H; [by rewrite decide_True|by rewrite decide_False].
    + apply list_elem_of_fmap. exists t0. by rewrite decide_True.
  - settle_cases net (PUT_task id (negb currentCompleted));
      by rewrite ?length_fmap.
Qed.

(** ** Delete *)

(** C6. After a successful Delete of an id held by the collection, no task
    with that id remains, and the other tasks are the same sequence as
    before: same values, same order. *)
Theorem delete_success_removes
    (net : Network) (s : State.t) (id : Id) (r : Response unit) :
  (∃ t, t ∈ State.tasks s ∧ Task.id t = id) →
  net _ (DELETE_task id) = Fulfilled r →
  ok r = true →
  let s' := final (perform net (Op_Delete id) s) in
  (∀ t, t ∈ State.tasks s' → Task.id t ≠ id) ∧
  filter (λ t, Task.id t ≠ id) (State.tasks s')
    = filter (λ t, Task.id t ≠ id) (State.tasks s) ∧
  State.tasks s' `sublist_of` State.tasks s ∧
  length (State.tasks s') < length (State.tasks s).
Proof.
  intros Hin Hnet Hok. unfold_handler. simpl. rewrite Hnet.
  destruct r as [okr body]. simpl in Hok. subst okr. simpl.
  split; [|split; [|split]].
  - intros t Ht. by apply list_elem_of_filter in Ht as [? _].
  - apply list_filter_filter_l. done.
  - apply sublist_filter.
  - by apply filter_removes_some.
Qed.

(** ** List *)

(** C9. With an unchanged server answering [S], a first List makes the local
    collection [S] and a second List leaves it, and the whole state, as the
    first one left it. *)
Theorem list_twice_same (net : Network) (s : State.t) (S : list Task.t) :
  net _ GET_tasks = Fulfilled (mkResponse true (Fulfilled S)) →
  let s1 := final (perform net Op_List s) in
  let s2 := final (perform net Op_List s1) in
  State.tasks s1 = S ∧ State.tasks s2 = S ∧ s2 = s1.
Proof.
  intros Hnet. unfold_handler. simpl. rewrite Hnet. simpl. auto.
Qed.

(** ** Operations on an id the collection does not hold *)


(** ** The busy flag *)

Lemma outstanding_app (l1 l2 : list Suspended) :
  outstanding (l1 ++ l2) = outstanding l1 + outstanding l2.
Proof. unfold outstanding. by rewrite filter_app, length_app. Qed.

Lemma outstanding_cons (p : Suspended) (l : list Suspended) :
  outstanding (p :: l) = (if list_or_create p then 1 else 0) + outstanding l.
Proof.
  unfold outstanding. destruct (list_or_create p) eqn:E.
  - by rewrite filter_cons_True.
  - rewrite filter_cons_False; [done|]. by rewrite E.
Qed.

Lemma outstanding_pos_iff (l : list Suspended) :
  0 < outstanding l ↔ ∃ p, p ∈ l ∧ list_or_create p = true.
Proof.
  unfold outstanding. split.
  - intros H. destruct (filter _ l) as [|p l'] eqn:E; simpl in H; [lia|].
    assert (p ∈ filter (λ p, list_or_create p = true) l) as Hf
      by (rewrite E; left).
    apply list_elem_of_filter in Hf as [? ?]. eauto.
  - intros (p & Hin & Hp).
    assert (p ∈ filter (λ p, list_or_create p = true) l) as Hf
      by by apply list_elem_of_filter.
    destruct (filter _ l); [by apply elem_of_nil in Hf|simpl; lia].
Qed.

(** What each handler does up to its request, on any store. *)
Lemma advance_handler (op : Op) (r s : State.t) :
  (op = Op_Create ∧ advance (handler op r) s = (s, Finished (Normal tt))) ∨
  ∃ B (c : Call B) k s1,
    advance (handler op r) s = (s1, Waiting c k) ∧
    well_behaved (mkSuspended B c k) ∧
    busy_call c = sets_busy op ∧
    State.error s1 = None ∧
    State.loading s1 = (if sets_busy op then true else State.loading s).
Proof.
  destruct op as [| |id cc|id]; unfold handler.
  - right. do 4 eexists. split; [reflexivity|]. split; [|done].
    intros [[[] [d|e]]|e] s0; simpl; eauto.
  - unfold addTask. destruct (not_str (trim (State.newTask r))).
    + by left.
    + right. do 4 eexists. split; [reflexivity|]. split; [|done].
      intros [[[] [d|e]]|e] s0; simpl; eauto.
  - right. do 4 eexists. split; [reflexivity|]. split; [|done].
    intros [[[] [d|e]]|e] s0; simpl; eauto.
  - right. do 4 eexists. split; [reflexivity|]. split; [|done].
    intros [[[] [d|e]]|e] s0; simpl; eauto.
Qed.

Lemma launch_handler_invariant (op : Op) (σ : Sys.t) :
  (op = Op_List ∨ op = Op_Create → State.loading (Sys.store σ) = false) →
  busy_invariant σ →
  busy_invariant (launch (handler op (Sys.store σ)) σ).
Proof.
  intros Hguard [Hwb Hcount]. unfold launch.
  destruct (advance_handler op (Sys.store σ) (Sys.store σ))
    as [[_ ->]|(B & c & k & s1 & -> & Hk & Hc & _ & Hload)].
  { by split. }
  split; simpl.
  - apply Forall_app. split; [done|]. by apply Forall_singleton.
  - rewrite outstanding_app, outstanding_cons, Hcount, Hload.
    unfold list_or_create, outstanding. simpl. rewrite Hc.
    destruct op; simpl; try (rewrite Hguard by auto; done);
      destruct (State.loading (Sys.store σ)); simpl; lia.
Qed.

Lemma step_invariant (σ σ' : Sys.t) :
  step σ σ' → busy_invariant σ → busy_invariant σ'.
Proof.
  intros Hstep Hinv. destruct Hstep as [σ v|σ Hidle|σ id c|σ id|σ l1 p l2 a Hp].
  - exact Hinv.
  - apply launch_handler_invariant; auto.
  - apply launch_handler_invariant; [intros [|]; discriminate|done].
  - apply launch_handler_invariant; [intros [|]; discriminate|done].
  - destruct Hinv as [Hwb Hcount]. rewrite Hp in Hwb, Hcount.
    apply Forall_app in Hwb as [Hwb1 Hwb2].
    apply Forall_cons in Hwb2 as [Hwbp Hwb2].
    destruct (Hwbp a (Sys.store σ)) as (s' & c & Hadv & Hload).
    unfold launch. simpl. rewrite Hadv. split; simpl.
    + apply Forall_app. done.
    + rewrite outstanding_app, outstanding_cons in Hcount.
      rewrite outstanding_app, Hload.
      destruct (list_or_create p), (State.loading (Sys.store σ)); simpl in *; lia.
Qed.

Lemma reachable_invariant (σ : Sys.t) : reachable σ → busy_invariant σ.
Proof.
  induction 1 as [| |σ σ' _ IH Hstep].
  - split; [constructor|done].
  - apply (launch_handler_invariant Op_List first_render); [done|].
    split; [constructor|done].
  - by apply (step_invariant σ).
Qed.

(** ** Failures *)

Lemma error_after (net : Network) (op : Op) (s : State.t) (r : Reply) :
  answer net (handler op s) s = Some r →
  State.error (final (perform net op s)) =
    match r with
    | NonOk => Some (fixed_message op)
    | Unreachable e => Some (message e)
    | Malformed e => if reads_body op then Some (message e) else None
    | WellFormed => None
    end.
Proof.
  destruct op as [| |id c|id]; unfold_handler; simpl.
  - intros [= <-]. settle_cases net GET_tasks; done.
  - destruct (not_str (trim (State.newTask s))); simpl; [done|].
    intros [= <-]. settle_cases net (POST_tasks (State.newTask s) false); done.
  - intros [= <-]. settle_cases net (PUT_task id (negb c)); done.
  - intros [= <-]. settle_cases net (DELETE_task id); done.
Qed.

(** C2, as the code has it.  For each of the four operations the stored
    error is decided by the operation and by how its request was answered:
    the operation's fixed message after a response that is not 2xx; the
    message carried by the rejection when the request itself is rejected or
    when the body does not parse (Delete never parses the body, so for it
    such a response is a success); no error after a success. *)
Theorem stored_error_by_reply
    (net : Network) (op : Op) (s : State.t) (r : Reply) :
  answer net (handler op s) s = Some r →
  State.error (final (perform net op s)) =
    match r with
    | NonOk => Some (fixed_message op)
    | Unreachable e => Some (message e)
    | Malformed e => if reads_body op then Some (message e) else None
    | WellFormed => None
    end.
Proof. apply error_after. Qed.

(** C1, as the code has it.  A Create, Toggle or Delete that fails (its
    request is rejected, the response is not 2xx, or, for Create and Toggle,
    the body does not parse) leaves the collection as it was and stores the
    message of the error it caught: the operation's fixed message after a
    response that is not 2xx, the rejection's own message otherwise. *)
Theorem failed_mutation_keeps_collection
    (net : Network) (op : Op) (s : State.t) (r : Reply) :
  op ≠ Op_List →
  answer net (handler op s) s = Some r →
  failed op r = true →
  let s' := final (perform net op s) in
  State.tasks s' = State.tasks s ∧
  (r = NonOk → State.error s' = Some (fixed_message op)) ∧
  (∀ e, r = Unreachable e ∨ r = Malformed e →
        State.error s' = Some (message e)).
Proof.
  intros Hop Hans Hfail s'.
  assert (State.tasks s' = State.tasks s) as Htasks.
  { subst s'. revert Hans Hfail.
    destruct op as [| |id c|id]; [done|..]; unfold_handler; simpl.
    - destruct (not_str (trim (State.newTask s))); simpl; [done|].
      intros [= <-].
      settle_cases net (POST_tasks (State.newTask s) false); done.
    - intros [= <-]. settle_cases net (PUT_task id (negb c)); done.
    - intros [= <-]. settle_cases net (DELETE_task id); done. }
  split; [done|]. subst s'.
  rewrite (error_after net op s r Hans).
  split.
  - by intros ->.
  - intros e [->| ->]; [done|]. simpl in Hfail. by rewrite Hfail.
Qed.

(** C8. Every operation that sends a request (List, Toggle, Delete, and
    Create when its title does not trim to the empty string) has cleared the
    stored error by the time the request leaves: the handler suspends at its
    single request with [error] already [null]. *)
Theorem error_cleared_before_request
    (net : Network) (op : Op) (s : State.t) :
  (op = Op_Create → trim (State.newTask s) ≠ []) →
  (∃ req s1,
     sent (perform net op s) = [(req, s1)] ∧ State.error s1 = None) ∧
  (∃ B (c : Call B) k s1,
     advance (handler op s) s = (s1, Waiting c k) ∧ State.error s1 = None).
Proof.
  intros Hpre.
  destruct (advance_handler op s s)
    as [[-> Hadv]|(B & c & k & s1 & Hadv & Hk & _ & Herr & _)].
  - exfalso. specialize (Hpre eq_refl). apply not_blank in Hpre.
    unfold handler, addTask in Hadv. rewrite Hpre in Hadv. discriminate Hadv.
  - split; [|by eauto 10].
    unfold perform. rewrite run_advance, Hadv.
    destruct (Hk (net _ c) s1) as (s2 & cpl & Hfin & _). simpl in Hfin.
    simpl. rewrite (run_advance net (k (net B c)) s1), Hfin. simpl. eauto.
Qed.

(** C7. The busy flag is true exactly while a List or a Create request is
    outstanding.  In every state the page can reach, [loading] is true if
    and only if some suspended handler waits for the request of a List or of
    a Create.  List and Create (once past its blank-title guard) have
    [loading] true when their request leaves and false when they end,
    however the request is answered; Toggle and Delete leave [loading] as
    they found it, at their request and at their end. *)
Theorem busy_iff_list_or_create_outstanding :
  (∀ σ, reachable σ →
     State.loading (Sys.store σ) = true ↔
     ∃ p, p ∈ Sys.pending σ ∧ list_or_create p = true) ∧
  (∀ (net : Network) op s,
     sets_busy op = true →
     (op = Op_Create → trim (State.newTask s) ≠ []) →
     (∃ req s1, sent (perform net op s) = [(req, s1)] ∧
                State.loading s1 = true) ∧
     State.loading (final (perform net op s)) = false) ∧
  (∀ (net : Network) op s,
     sets_busy op = false →
     (∃ req s1, sent (perform net op s) = [(req, s1)] ∧
                State.loading s1 = State.loading s) ∧
     State.loading (final (perform net op s)) = State.loading s).
Proof.
  split; [|split].
  - intros σ Hσ. destruct (reachable_invariant σ Hσ) as [_ Hcount].
    rewrite <- outstanding_pos_iff, Hcount.
    destruct (State.loading (Sys.store σ)); split; (done || lia).
  - intros net op s Hop Hpre.
    destruct op as [| |id c|id]; try discriminate Hop; unfold_handler; simpl.
    + settle_cases net GET_tasks; eauto.
    + rewrite (not_blank _ (Hpre eq_refl)). simpl.
      settle_cases net (POST_tasks (State.newTask s) false); eauto.
  - intros net op s Hop.
    destruct op as [| |id c|id]; try discriminate Hop; unfold_handler; simpl.
    + settle_cases net (PUT_task id (negb c)); eauto.
    + settle_cases net (DELETE_task id); eauto.
Qed.

(** ** The handlers on the sample data *)

Example trim_example : trim (str "  buy milk ") = str "buy milk".
Proof. reflexivity. Qed.

Example trim_blanks_example : trim (State.newTask typing_blanks) = [].
Proof. reflexivity. Qed.

Example list_example :
  final (perform server Op_List State.initial)
    = State.mk [task_a] [] false None.
Proof. reflexivity. Qed.

Example list_refused_example :
  final (perform refusing Op_List typing_milk)
    = State.mk [task_a] (str "buy milk") false (Some (str "Failed to fetch tasks")).
Proof. reflexivity. Qed.

Example create_example :
  perform server Op_Create typing_milk
    = mkOutcome
        (State.mk [task_a; task_milk] [] false None)
        (Normal tt)
        [(mkRequest POST api_tasks json_headers
            (Some (NewTaskBody (str "buy milk") false)),
          State.mk [task_a] (str "buy milk") true None)].
Proof. reflexivity. Qed.

Example toggle_example :
  State.tasks (final (perform server (Op_Toggle (IdNum 1) false) typing_blanks))
    = [task_a_done; task_milk].
Proof. reflexivity. Qed.

Example delete_example :
  State.tasks (final (perform server (Op_Delete (IdNum 1)) typing_blanks))
    = [task_milk].
Proof. reflexivity. Qed.

(** A string id is not the number it spells: [===] does not convert. *)
Example delete_string_id_example :
  State.tasks (final (perform server (Op_Delete (IdStr (str "1"))) typing_blanks))
    = [task_a; task_milk].
Proof. reflexivity. Qed.

(** While the Create and the Toggle of the session are both outstanding,
    [loading] is true. *)
Example ticked_example :
  State.loading (Sys.store ticked) = true ∧
  list_or_create <$> Sys.pending ticked = [true; false].
Proof. split; reflexivity. Qed.

(** ** The session reaches its states *)

Lemma step_settle_head (net : Network) (σ : Sys.t) p l :
  Sys.pending σ = p :: l → step σ (settle_head net σ).
Proof.
  intros H. unfold settle_head. rewrite H.
  exact (step_settle σ [] p l (net _ (call p)) H).
Qed.

Lemma reachable_ticked : reachable ticked.
Proof.
  apply (reach_step submitted); [|apply step_toggle].
  apply (reach_step typed); [|by apply step_submit].
  apply (reach_step listed); [|apply step_change].
  apply (reach_step mounted); [apply reach_mounted|].
  by eapply step_settle_head.
Qed.

(** ** The theorems at the sample data *)

Lemma create_success_appends_witness :
  let s' := final (perform server Op_Create typing_milk) in
  State.tasks s' = [task_a; task_milk] ∧
  State.newTask s' = [] ∧
  State.loading s' = false.
Proof.
  apply (create_success_appends server typing_milk task_milk);
    [by vm_compute|reflexivity].
Defined.

Lemma create_blank_is_noop_witness :
  perform server Op_Create typing_blanks = mkOutcome typing_blanks (Normal tt) [].
Proof. apply (create_blank_is_noop server typing_blanks). reflexivity. Defined.

Lemma toggle_replaces_matching_witness :
  let s' := final (perform server (Op_Toggle (IdNum 1) false) typing_blanks) in
  (∀ data,
     server _ (PUT_task (IdNum 1) (negb false))
       = Fulfilled (mkResponse true (Fulfilled data)) →
     (∀ i t, State.tasks typing_blanks !! i = Some t →
        (Task.id t = IdNum 1 → State.tasks s' !! i = Some data) ∧
        (Task.id t ≠ IdNum 1 → State.tasks s' !! i = Some t)) ∧
     data ∈ State.tasks s') ∧
  length (State.tasks s') = length (State.tasks typing_blanks).
Proof.
  apply (toggle_replaces_matching server typing_blanks (IdNum 1) false).
  exists task_a. split; [left|reflexivity].
Defined.

Lemma delete_success_removes_witness :
  let s' := final (perform server (Op_Delete (IdNum 1)) typing_blanks) in
  (∀ t, t ∈ State.tasks s' → Task.id t ≠ IdNum 1) ∧
  filter (λ t, Task.id t ≠ IdNum 1) (State.tasks s')
    = filter (λ t, Task.id t ≠ IdNum 1) (State.tasks typing_blanks) ∧
  State.tasks s' `sublist_of` State.tasks typing_blanks ∧
  length (State.tasks s') < length (State.tasks typing_blanks).
Proof.
  eapply (delete_success_removes server typing_blanks (IdNum 1));
    [|reflexivity|reflexivity].
  exists task_a. split; [left|reflexivity].
Defined.

Lemma list_twice_same_witness :
  let s1 := final (perform server Op_List typing_milk) in
  let s2 := final (perform server Op_List s1) in
  State.tasks s1 = [task_a] ∧ State.tasks s2 = [task_a] ∧ s2 = s1.
Proof. apply (list_twice_same server typing_milk [task_a]). reflexivity. Defined.


Lemma stored_error_by_reply_witness :
  State.error (final (perform garbled (Op_Toggle (IdNum 1) false) typing_milk))
    = Some (str "Unexpected end of JSON input").
Proof.
  apply (stored_error_by_reply garbled (Op_Toggle (IdNum 1) false) typing_milk
           (Malformed (Error (str "Unexpected end of JSON input")))).
  reflexivity.
Defined.

Lemma failed_mutation_keeps_collection_witness :
  let s' := final (perform refusing (Op_Delete (IdNum 1)) typing_milk) in
  State.tasks s' = [task_a] ∧
  (NonOk = NonOk → State.error s' = Some (str "Failed to delete task")) ∧
  (∀ e, NonOk = Unreachable e ∨ NonOk = Malformed e →
        State.error s' = Some (message e)).
Proof.
  apply (failed_mutation_keeps_collection refusing (Op_Delete (IdNum 1))
           typing_milk NonOk); [discriminate|reflexivity|reflexivity].
Defined.

Lemma error_cleared_before_request_witness :
  (∃ req s1,
     sent (perform offline Op_Create typing_milk) = [(req, s1)] ∧
     State.error s1 = None) ∧
  (∃ B (c : Call B) k s1,
     advance (handler Op_Create typing_milk) typing_milk = (s1, Waiting c k) ∧
     State.error s1 = None).
Proof.
  apply (error_cleared_before_request offline Op_Create typing_milk).
  intros _. by vm_compute.
Defined.

Lemma busy_while_create_outstanding_witness :
  State.loading (Sys.store ticked) = true ↔
  ∃ p, p ∈ Sys.pending ticked ∧ list_or_create p = true.
Proof.
  apply (proj1 busy_iff_list_or_create_outstanding ticked reachable_ticked).
Defined.

(** ** Where the fixed messages are not what is stored *)

(** C1 as first stated fails: with no route to the server a Create fails,
    the collection is kept, but the stored error is the message of the
    rejection of [fetch], not "Failed to add task". *)
Lemma failed_create_error_is_not_fixed :
  let s' := final (perform offline Op_Create typing_milk) in
  answer offline (handler Op_Create typing_milk) typing_milk
    = Some (Unreachable (Error (str "Failed to fetch"))) ∧
  failed Op_Create (Unreachable (Error (str "Failed to fetch"))) = true ∧
  State.error s' = Some (str "Failed to fetch") ∧
  ¬ (State.tasks s' = State.tasks typing_milk ∧
     State.error s' = Some (str "Failed to add task")).
Proof.
  repeat split; try reflexivity.
  intros [_ H]. vm_compute in H. discriminate H.
Qed.

(** C2 as first stated fails: when a 2xx answer to List carries a body that
    does not parse, the stored error is the parser's message, not
    "Failed to fetch tasks". *)
Lemma malformed_list_error_is_not_fixed :
  let s' := final (perform garbled Op_List typing_milk) in
  answer garbled (handler Op_List typing_milk) typing_milk
    = Some (Malformed (Error (str "Unexpected end of JSON input"))) ∧
  State.error s' = Some (str "Unexpected end of JSON input") ∧
  State.error s' ≠ Some (fixed_message Op_List).
Proof.
  repeat split; try reflexivity.
  intros H. vm_compute in H. discriminate H.
Qed.


(** * Further properties of the handlers *)

(** ** Blank titles *)

Lemma trimStart_nil_iff (s : JsString) :
  trimStart s = [] ↔ Forall (λ c, isWhiteSpace c = true) s.
Proof.
  induction s as [|c s IH]; simpl.
  - split; [constructor|done].
  - destruct (isWhiteSpace c) eqn:E.
    + rewrite IH. split; [by constructor|by inversion 1].
    + split; [done|]. inversion 1; congruence.
Qed.

Lemma trimStart_head (s : JsString) c s' :
  trimStart s = c :: s' → isWhiteSpace c = false.
Proof.
  induction s as [|d s IH]; simpl; [done|].
  destruct (isWhiteSpace d) eqn:E; [done|]. by intros [= <- _].
Qed.

Lemma trim_nil_iff (s : JsString) :
  trim s = [] ↔ Forall (λ c, isWhiteSpace c = true) s.
Proof.
  unfold trim, trimEnd. split.
  - intros H. apply trimStart_nil_iff.
    assert (trimStart (reverse (trimStart s)) = []) as H'.
    { apply (f_equal reverse) in H. by rewrite reverse_involutive in H. }
    apply trimStart_nil_iff in H'.
    destruct (trimStart s) as [|c s'] eqn:E; [done|].
    apply trimStart_head in E.
    rewrite Forall_forall in H'.
    rewrite (H' c) in E; [done|]. rewrite elem_of_reverse. left.
  - intros H. apply trimStart_nil_iff in H. by rewrite H.
Qed.

(** X1. Create sends a request exactly when the input buffer holds a
    character that is not white space: a buffer made of white space only
    (or empty) never reaches the server, any other does, whatever the
    state. *)
Theorem create_sends_iff_not_all_blank (net : Network) (s : State.t) :
  sent (perform net Op_Create s) = [] ↔
  Forall (λ c, isWhiteSpace c = true) (State.newTask s).
Proof.
  rewrite <- trim_nil_iff. unfold_handler.
  destruct (not_str (trim (State.newTask s))) eqn:E.
  - apply not_str_true in E. by rewrite E.
  - simpl. split; [done|]. intros H. by rewrite H in E.
Qed.

(** ** What every operation does and never does *)

(** X2. No error leaves a handler: for every operation, state and network
    the handler's promise is fulfilled, never rejected. *)
Theorem handlers_never_reject (net : Network) (op : Op) (s : State.t) :
  completion (perform net op s) = Normal tt.
Proof.
  destruct op as [| |id c|id]; unfold_handler; simpl.
  - settle_cases net GET_tasks; done.
  - destruct (not_str (trim (State.newTask s))); simpl; [done|].
    settle_cases net (POST_tasks (State.newTask s) false); done.
  - settle_cases net (PUT_task id (negb c)); done.
  - settle_cases net (DELETE_task id); done.
Qed.

(** X3. An operation sends its one request and never a second one, however
    the first is answered: no retry.  List sends GET /api/tasks; Create
    sends POST /api/tasks with the buffer as typed (not trimmed) and
    completed false; Toggle sends PUT /api/tasks/id with the negation of the
    value it was given; Delete sends DELETE /api/tasks/id without a body. *)
Theorem one_request_no_retry (net : Network) (op : Op) (s : State.t) :
  (sent (perform net op s)).*1 = request_of op s.
Proof.
  destruct op as [| |id c|id]; unfold_handler; simpl.
  - settle_cases net GET_tasks; done.
  - destruct (not_str (trim (State.newTask s))); simpl; [done|].
    settle_cases net (POST_tasks (State.newTask s) false); done.
  - settle_cases net (PUT_task id (negb c)); done.
  - settle_cases net (DELETE_task id); done.
Qed.

(** X4. A failed operation, List included, changes nothing but the error
    and the busy flag: the collection and the input buffer are kept (so a
    failed Create can be resubmitted as typed), and busy ends false for List
    and Create and as it was for Toggle and Delete. *)
Theorem failure_keeps_collection_and_buffer
    (net : Network) (op : Op) (s : State.t) (r : Reply) :
  answer net (handler op s) s = Some r →
  failed op r = true →
  let s' := final (perform net op s) in
  State.tasks s' = State.tasks s ∧
  State.newTask s' = State.newTask s ∧
  State.loading s' = (if sets_busy op then false else State.loading s).
Proof.
  destruct op as [| |id c|id]; unfold_handler; simpl.
  - intros [= <-]. settle_cases net GET_tasks; done.
  - destruct (not_str (trim (State.newTask s))); simpl; [done|].
    intros [= <-]. settle_cases net (POST_tasks (State.newTask s) false); done.
  - intros [= <-]. settle_cases net (PUT_task id (negb c)); done.
  - intros [= <-]. settle_cases net (DELETE_task id); done.
Qed.

(** X5. The input buffer is only ever changed by a Create that succeeded:
    List, Toggle and Delete never touch it, and neither does a Create that
    fails or whose title is blank. *)
Theorem buffer_changes_only_on_created
    (net : Network) (op : Op) (s : State.t) :
  State.newTask (final (perform net op s)) ≠ State.newTask s →
  op = Op_Create ∧
  answer net (handler op s) s = Some WellFormed ∧
  State.newTask (final (perform net op s)) = [].
Proof.
  destruct op as [| |id c|id]; unfold_handler; simpl.
  - settle_cases net GET_tasks; done.
  - destruct (not_str (trim (State.newTask s))); simpl; [done|].
    settle_cases net (POST_tasks (State.newTask s) false); done.
  - settle_cases net (PUT_task id (negb c)); done.
  - settle_cases net (DELETE_task id); done.
Qed.

(** X6. The client never invents a task.  If every task the server sends in
    a response body has a property, and every task held has it, then every
    task held after any operation has it. *)
Theorem tasks_come_from_the_server
    (net : Network) (op : Op) (s : State.t) (P : Task.t → Prop) :
  (∀ B (c : Call B), Forall P (served c (net B c))) →
  Forall P (State.tasks s) →
  Forall P (State.tasks (final (perform net op s))).
Proof.
  intros Hnet Hs.
  destruct op as [| |id c|id]; unfold_handler; simpl.
  - pose proof (Hnet _ GET_tasks) as H. revert H.
    settle_cases net GET_tasks; done.
  - destruct (not_str (trim (State.newTask s))); simpl; [done|].
    pose proof (Hnet _ (POST_tasks (State.newTask s) false)) as H. revert H.
    settle_cases net (POST_tasks (State.newTask s) false); try done.
    intros H. apply Forall_app. done.
  - pose proof (Hnet _ (PUT_task id (negb c))) as H. revert H.
    settle_cases net (PUT_task id (negb c)); try done.
    intros H. apply Forall_fmap. rewrite Forall_singleton in H.
    eapply Forall_impl; [exact Hs|]. intros t Ht. unfold compose. by case_decide.
  - settle_cases net (DELETE_task id); try done;
      (apply Forall_forall; intros t Ht;
       apply list_elem_of_filter in Ht as [_ Ht];
       by apply (proj1 (Forall_forall _ _) Hs)).
Qed.

(** ** Operations one after another *)

Lemma perform_delete_tasks (net : Network) (s : State.t) (id : Id) r :
  net _ (DELETE_task id) = Fulfilled r → ok r = true →
  State.tasks (final (perform net (Op_Delete id) s))
    = filter (λ t, Task.id t ≠ id) (State.tasks s).
Proof.
  intros Hnet Hok. unfold_handler. simpl. rewrite Hnet.
  destruct r as [okr b]. simpl in Hok. by subst okr.
Qed.

Lemma perform_toggle_tasks (net : Network) (s : State.t) (id : Id) c data :
  net _ (PUT_task id (negb c)) = Fulfilled (mkResponse true (Fulfilled data)) →
  State.tasks (final (perform net (Op_Toggle id c) s))
    = (λ t, if decide (Task.id t = id) then data else t) <$> State.tasks s.
Proof. intros Hnet. unfold_handler. simpl. by rewrite Hnet. Qed.

(** X7. Create then Delete is a round trip: when the server gives the new
    task an id that no held task has, deleting that id right after the
    Create brings the collection back to what it was before the Create. *)
Theorem create_then_delete_restores
    (net : Network) (s : State.t) (data : Task.t) (r : Response unit) :
  trim (State.newTask s) ≠ [] →
  net _ (POST_tasks (State.newTask s) false)
    = Fulfilled (mkResponse true (Fulfilled data)) →
  (∀ t, t ∈ State.tasks s → Task.id t ≠ Task.id data) →
  net _ (DELETE_task (Task.id data)) = Fulfilled r →
  ok r = true →
  let s1 := final (perform net Op_Create s) in
  State.tasks (final (perform net (Op_Delete (Task.id data)) s1))
    = State.tasks s.
Proof.
  intros Hnb Hpost Hfresh Hdel Hok s1.
  rewrite (perform_delete_tasks net s1 _ r Hdel Hok). subst s1.
  unfold_handler. rewrite (not_blank _ Hnb). simpl. rewrite Hpost. simpl.
  rewrite filter_app, filter_none_matches by done.
  rewrite filter_cons_False by (intros H; by apply H).
  by rewrite filter_nil, app_nil_r.
Qed.

(** X8. Two Toggles of one id in a row: when the first response carries that
    id, the collection after the second Toggle is what the second Toggle
    alone would have given.  The last response decides; nothing of the first
    one is left. *)
Theorem toggle_last_response_wins
    (net1 net2 : Network) (s : State.t) (id : Id) (c1 c2 : bool)
    (data1 data2 : Task.t) :
  net1 _ (PUT_task id (negb c1))
    = Fulfilled (mkResponse true (Fulfilled data1)) →
  net2 _ (PUT_task id (negb c2))
    = Fulfilled (mkResponse true (Fulfilled data2)) →
  Task.id data1 = id →
  let s1 := final (perform net1 (Op_Toggle id c1) s) in
  State.tasks (final (perform net2 (Op_Toggle id c2) s1))
    = State.tasks (final (perform net2 (Op_Toggle id c2) s)).
Proof.
  intros H1 H2 Hid s1.
  rewrite (perform_toggle_tasks net2 s1 id c2 data2 H2).
  rewrite (perform_toggle_tasks net2 s id c2 data2 H2). subst s1.
  rewrite (perform_toggle_tasks net1 s id c1 data1 H1).
  rewrite <- list_fmap_compose. apply list_fmap_ext.
  intros i t _. simpl. destruct (decide (Task.id t = id)) as [E|E].
  - by rewrite decide_True.
  - by rewrite decide_False.
Qed.

(** X9. Deleting the same id a second time changes nothing more, and two
    Deletes of different ids give the same collection in either order. *)
Theorem delete_twice_and_commute
    (net : Network) (s : State.t) (id1 id2 : Id) (r1 r2 : Response unit) :
  net _ (DELETE_task id1) = Fulfilled r1 → ok r1 = true →
  net _ (DELETE_task id2) = Fulfilled r2 → ok r2 = true →
  let after op s := final (perform net op s) in
  State.tasks (after (Op_Delete id1) (after (Op_Delete id1) s))
    = State.tasks (after (Op_Delete id1) s) ∧
  State.tasks (after (Op_Delete id2) (after (Op_Delete id1) s))
    = State.tasks (after (Op_Delete id1) (after (Op_Delete id2) s)).
Proof.
  intros H1 Hok1 H2 Hok2 after. subst after. cbv beta.
  rewrite !(perform_delete_tasks net _ id1 r1 H1 Hok1).
  rewrite !(perform_delete_tasks net _ id2 r2 H2 Hok2).
  rewrite !(perform_delete_tasks net _ id1 r1 H1 Hok1).
  split.
  - by apply list_filter_filter_l.
  - rewrite !list_filter_filter. apply list_filter_iff. tauto.
Qed.

(** X10. A second submit right after a Create that succeeded does nothing:
    the buffer was emptied, so no second request leaves and the new task is
    not created twice. *)
Theorem double_submit_is_noop
    (net : Network) (s : State.t) (data : Task.t) :
  trim (State.newTask s) ≠ [] →
  net _ (POST_tasks (State.newTask s) false)
    = Fulfilled (mkResponse true (Fulfilled data)) →
  let s1 := final (perform net Op_Create s) in
  perform net Op_Create s1 = mkOutcome s1 (Normal tt) [].
Proof.
  intros Hnb Hnet s1.
  assert (State.newTask s1 = []) as Hbuf.
  { subst s1. unfold_handler. rewrite (not_blank _ Hnb). simpl.
    by rewrite Hnet. }
  unfold perform, handler. rewrite addTask_blank; [done|]. by rewrite Hbuf.
Qed.

(** X11. Tasks created one after another end up after the tasks already
    held, in the order they were submitted.  Each submission comes with the
    network as it is at that moment, so the server may answer the same title
    differently each time (a new id for each task); every Create being
    accepted, the collection grows by the returned tasks in that order. *)
Theorem creates_append_in_order
    (submissions : list (Network * JsString * Task.t)) (s : State.t) :
  (∀ (net : Network) v data, (net, v, data) ∈ submissions →
     trim v ≠ [] ∧
     net _ (POST_tasks v false)
       = Fulfilled (mkResponse true (Fulfilled data))) →
  State.tasks (foldl (λ s x, type_and_submit x.1.1 s x.1.2) s submissions)
    = State.tasks s ++ submissions.*2.
Proof.
  revert s. induction submissions as [|[[net v] data] l IH]; intros s H; simpl.
  - by rewrite app_nil_r.
  - rewrite IH by (intros net' w d Hw; apply H; by right).
    destruct (H net v data) as [Hnb Hnet]; [left|].
    unfold type_and_submit. unfold_handler. simpl.
    rewrite (not_blank _ Hnb). simpl. rewrite Hnet. simpl.
    by rewrite <- app_assoc.
Qed.

(** ** Overlapping operations *)

(** X12. An operation that runs alone in the system, started from a quiet
    page and settled by the network, leaves the store that the one-at-a-time
    semantics gives, and nothing outstanding. *)
Theorem alone_in_system_is_perform (net : Network) (op : Op) (s : State.t) :
  settle_head net (launch (handler op s) (Sys.mk s []))
    = Sys.mk (final (perform net op s)) [].
Proof.
  unfold launch, perform. simpl. rewrite run_advance.
  destruct (advance_handler op s s)
    as [[_ ->]|(B & c & k & s1 & -> & Hk & _)]; [done|].
  unfold settle_head, launch. simpl.
  destruct (Hk (net _ c) s1) as (s2 & cpl & Hfin & _). simpl in Hfin.
  rewrite Hfin. by rewrite (run_advance net (k (net B c)) s1), Hfin.
Qed.

(** The system agrees with [respond]: a handler started on the render of
    [r], settled when the store has become [s], leaves the store that
    [respond] gives. *)
Lemma settle_is_respond (net : Network) (op : Op) (r s : State.t) :
  settle_head net
    (Sys.mk s (Sys.pending (launch (handler op r) (Sys.mk r []))))
    = Sys.mk (final (respond net op r s)) [].
Proof.
  unfold launch, respond. simpl.
  destruct (advance_handler op r r)
    as [[_ ->]|(B & c & k & s1 & -> & Hk & _)]; [done|].
  unfold settle_head, launch. simpl.
  destruct (Hk (net _ c) s) as (s2 & cpl & Hfin & _). simpl in Hfin.
  rewrite Hfin. by rewrite (run_advance net (k (net B c)) s), Hfin.
Qed.

(** X13. Overlapping operations lose updates.  When an operation is started
    while another is still outstanding (any two that are not both a List or
    a Create), both were bound by renders holding the same collection;
    whichever settles last and succeeds writes its own patch of that
    collection, and what the other wrote is gone.  Only if the last one
    fails does the first one's result stay. *)
Theorem overlapping_last_settled_wins
    (net : Network) (op1 op2 : Op) (s : State.t) (r1 r2 : Reply) :
  sets_busy op1 && sets_busy op2 = false →
  answer net (handler op1 s) s = Some r1 →
  answer net (handler op2 s) s = Some r2 →
  let alone op := State.tasks (final (perform net op s)) in
  let σ := both_started op1 op2 s in
  State.tasks (Sys.store (settle_at net 0 (settle_at net 0 σ)))
    = (if failed op2 r2 then alone op1 else alone op2) ∧
  State.tasks (Sys.store (settle_at net 0 (settle_at net 1 σ)))
    = (if failed op1 r1 then alone op2 else alone op1).
Proof.
  intros Hb.
  destruct op1 as [| |id1 c1|id1]; destruct op2 as [| |id2 c2|id2];
    try discriminate Hb;
  unfold both_started, settle_at, launch; unfold_handler; simpl;
  try (destruct (not_str (trim (State.newTask s))); simpl; [done|]);
  intros [= <-] [= <-];
  match goal with
  | |- context [classify (net ?B1 ?k1)] =>
      destruct (net B1 k1) as [[[] [?|?]]|?] eqn:E1
  end;
  match goal with
  | |- context [failed _ (classify (net ?B2 ?k2))] =>
      destruct (net B2 k2) as [[[] [?|?]]|?] eqn:E2
  end;
  simpl; rewrite ?E1, ?E2; simpl; rewrite ?E1, ?E2; simpl; done.
Qed.

(** X14. At most one List or Create is outstanding in any state the page
    can reach: the disabled form keeps a second Create from starting while
    one is on its way. *)
Theorem at_most_one_list_or_create (σ : Sys.t) :
  reachable σ → outstanding (Sys.pending σ) ≤ 1.
Proof.
  intros H. destruct (reachable_invariant σ H) as [_ ->].
  destruct (State.loading (Sys.store σ)); lia.
Qed.

(** ** The rendered page *)

Lemma item_of_task (s : State.t) items item :
  tasks_body (App s) = Task_list items →
  item ∈ items →
  ∃ t, t ∈ State.tasks s ∧ item = render_item (State.tasks s) t.
Proof.
  unfold App. simpl.
  destruct (State.loading s && bool_decide (length (State.tasks s) = 0));
    [done|].
  destruct (bool_decide (length (State.tasks s) = 0)); [done|].
  intros [= <-] Hin. apply list_elem_of_fmap in Hin as (t & -> & Ht). eauto.
Qed.

(** X16. Every checkbox and delete button of the page acts on a task the
    collection holds.  Ticking the box of an item is the Toggle of that
    item's id with the completed value the box shows, so the request asks
    for the opposite of what is shown; clicking its delete button is the
    Delete of that id. *)
Theorem page_events_target_held_tasks
    (net : Network) (s : State.t) (items : list TaskItem) (item : TaskItem) :
  tasks_body (App s) = Task_list items →
  item ∈ items →
  (∃ t, t ∈ State.tasks s ∧
        Task.id t = key item ∧ Task.completed t = checked item) ∧
  run net (checkbox_onChange item) s
    = perform net (Op_Toggle (key item) (checked item)) s ∧
  run net (delete_onClick item) s = perform net (Op_Delete (key item)) s ∧
  (sent (run net (checkbox_onChange item) s)).*1
    = [mkRequest PUT (api_tasks_id (key item)) json_headers
         (Some (CompletedBody (negb (checked item))))].
Proof.
  intros Hbody Hin.
  destruct (item_of_task s items item Hbody Hin) as (t & Ht & ->). simpl.
  split; [by eauto|]. split; [done|]. split; [done|].
  unfold toggleTask. simpl.
  settle_cases net (PUT_task (Task.id t) (negb (Task.completed t))); done.
Qed.

(** X17. The banner around an operation.  An operation that sends a request
    takes the banner down as it starts, whatever else is outstanding.  When
    its response arrives, a failure puts up the operation's fixed message
    (response not 2xx) or the rejection's message (request rejected, or a
    parsed body malformed), except that an empty message, though stored,
    shows nothing; a success leaves the banner as it stands at that moment,
    which is none unless another operation has failed meanwhile. *)
Theorem banner_after_operation
    (net : Network) (op : Op) (r s : State.t) (σ : Sys.t) (reply : Reply) :
  answer net (handler op r) r = Some reply →
  error_banner (App (Sys.store (launch (handler op r) σ))) = None ∧
  error_banner (App (final (respond net op r s))) =
    match reply with
    | NonOk => Some (fixed_message op)
    | Unreachable e =>
        if not_str (message e) then None else Some (message e)
    | Malformed e =>
        if reads_body op
        then (if not_str (message e) then None else Some (message e))
        else error_banner (App s)
    | WellFormed => error_banner (App s)
    end.
Proof.
  unfold respond, launch, App.
  destruct op as [| |id c|id]; unfold_handler; simpl.
  - intros [= <-]. split; [done|].
    settle_cases net GET_tasks; try done; by destruct (not_str (message _)).
  - destruct (not_str (trim (State.newTask r))); simpl; [done|].
    intros [= <-]. split; [done|].
    settle_cases net (POST_tasks (State.newTask r) false); try done;
      by destruct (not_str (message _)).
  - intros [= <-]. split; [done|].
    settle_cases net (PUT_task id (negb c)); try done;
      by destruct (not_str (message _)).
  - intros [= <-]. split; [done|].
    settle_cases net (DELETE_task id); try done;
      by destruct (not_str (message _)).
Qed.

(** X18. Every event the rendered page can fire is a step of the system in
    which the busy flag was studied: the guards taken there are the ones the
    page enforces through [disabled={loading}] and through what it lists.
    Hence the page never leaves the reachable states. *)
Theorem page_step_is_step (σ σ' : Sys.t) :
  page_step σ σ' → step σ σ' ∧ (reachable σ → reachable σ').
Proof.
  intros H.
  assert (step σ σ') as Hstep.
  { destruct H as [σ v _|σ Hen|σ items item Hb Hin|σ items item Hb Hin
                  |σ l1 p l2 a Hp].
    - apply step_change.
    - by apply step_submit.
    - destruct (item_of_task _ _ _ Hb Hin) as (t & _ & ->).
      apply (step_toggle σ (Task.id t) (Task.completed t)).
    - destruct (item_of_task _ _ _ Hb Hin) as (t & _ & ->).
      apply (step_delete σ (Task.id t)).
    - by apply step_settle. }
  split; [done|]. intros Hr. by apply (reach_step σ).
Qed.

(** ** The further properties at the sample data *)

(** Two Deletes that overlap: the one that settles last brings back the
    task the other removed, where one after the other they empty the
    collection. *)
Example overlapping_deletes_example :
  let σ := both_started (Op_Delete (IdNum 1)) (Op_Delete (IdNum 2)) typing_blanks in
  State.tasks (Sys.store (settle_at server 0 (settle_at server 0 σ))) = [task_a] ∧
  State.tasks (Sys.store (settle_at server 0 (settle_at server 1 σ))) = [task_milk] ∧
  State.tasks (final (perform server (Op_Delete (IdNum 2))
                 (final (perform server (Op_Delete (IdNum 1)) typing_blanks)))) = [].
Proof. repeat split; reflexivity. Qed.

(** The first render shows the empty state with the form enabled; once the
    effect has started the List, the placeholder with the form disabled. *)
Example first_pages_example :
  tasks_body (App (Sys.store first_render)) = Empty_state ∧
  button_label (App (Sys.store first_render)) = Add_Task ∧
  tasks_body (App (Sys.store mounted)) = Loading_div ∧
  button_label (App (Sys.store mounted)) = Adding.
Proof. repeat split; reflexivity. Qed.

Lemma failure_keeps_collection_and_buffer_witness :
  let s' := final (perform offline Op_List typing_milk) in
  State.tasks s' = [task_a] ∧
  State.newTask s' = str "buy milk" ∧
  State.loading s' = false.
Proof.
  apply (failure_keeps_collection_and_buffer offline Op_List typing_milk
           (Unreachable (Error (str "Failed to fetch")))); reflexivity.
Defined.

Lemma buffer_changes_only_on_created_witness :
  Op_Create = Op_Create ∧
  answer server (handler Op_Create typing_milk) typing_milk = Some WellFormed ∧
  State.newTask (final (perform server Op_Create typing_milk)) = [].
Proof.
  apply (buffer_changes_only_on_created server Op_Create typing_milk).
  by vm_compute.
Defined.

Lemma tasks_come_from_the_server_witness :
  Forall (λ t, Task.title t = str "a" ∨ Task.id t = IdNum 2)
         (State.tasks (final (perform server Op_Create typing_milk))).
Proof.
  apply (tasks_come_from_the_server server Op_Create typing_milk
           (λ t, Task.title t = str "a" ∨ Task.id t = IdNum 2)).
  - intros B c. destruct c; simpl.
    + apply Forall_singleton. by left.
    + apply Forall_singleton. by right.
    + apply Forall_singleton. by left.
    + constructor.
  - apply Forall_singleton. by left.
Defined.

Lemma create_then_delete_restores_witness :
  let s1 := final (perform server Op_Create typing_milk) in
  State.tasks (final (perform server (Op_Delete (Task.id task_milk)) s1))
    = State.tasks typing_milk.
Proof.
  eapply (create_then_delete_restores server typing_milk task_milk);
    [by vm_compute|reflexivity| |reflexivity|reflexivity].
  intros t Ht. apply list_elem_of_singleton in Ht. by rewrite Ht.
Defined.

Lemma toggle_last_response_wins_witness :
  let s1 := final (perform server (Op_Toggle (IdNum 1) false) typing_blanks) in
  State.tasks (final (perform server (Op_Toggle (IdNum 1) true) s1))
    = State.tasks (final (perform server (Op_Toggle (IdNum 1) true) typing_blanks)).
Proof.
  apply (toggle_last_response_wins server server typing_blanks (IdNum 1)
           false true task_a_done task_a); reflexivity.
Defined.

Lemma delete_twice_and_commute_witness :
  let after op s := final (perform server op s) in
  State.tasks (after (Op_Delete (IdNum 1)) (after (Op_Delete (IdNum 1)) typing_blanks))
    = State.tasks (after (Op_Delete (IdNum 1)) typing_blanks) ∧
  State.tasks (after (Op_Delete (IdNum 2)) (after (Op_Delete (IdNum 1)) typing_blanks))
    = State.tasks (after (Op_Delete (IdNum 1)) (after (Op_Delete (IdNum 2)) typing_blanks)).
Proof.
  eapply (delete_twice_and_commute server typing_blanks (IdNum 1) (IdNum 2));
    reflexivity.
Defined.

Lemma double_submit_is_noop_witness :
  let s1 := final (perform server Op_Create typing_milk) in
  perform server Op_Create s1 = mkOutcome s1 (Normal tt) [].
Proof.
  apply (double_submit_is_noop server typing_milk task_milk);
    [by vm_compute|reflexivity].
Defined.

Lemma creates_append_in_order_witness :
  State.tasks
    (foldl (λ s x, type_and_submit x.1.1 s x.1.2) quiet
       [(server_assigning 2, str "x", Task.mk (IdNum 2) (str "x") false);
        (server_assigning 3, str "x", Task.mk (IdNum 3) (str "x") false)])
    = [task_a;
       Task.mk (IdNum 2) (str "x") false; Task.mk (IdNum 3) (str "x") false].
Proof.
  apply (creates_append_in_order
           [(server_assigning 2, str "x", Task.mk (IdNum 2) (str "x") false);
            (server_assigning 3, str "x", Task.mk (IdNum 3) (str "x") false)]
           quiet).
  intros net v data Hv.
  apply elem_of_cons in Hv as [[= -> -> ->]|Hv];
    [split; [by vm_compute|reflexivity]|].
  apply list_elem_of_singleton in Hv as [= -> -> ->].
  split; [by vm_compute|reflexivity].
Defined.

Lemma overlapping_last_settled_wins_witness :
  let alone op := State.tasks (final (perform server op typing_blanks)) in
  let σ := both_started (Op_Delete (IdNum 1)) (Op_Delete (IdNum 2)) typing_blanks in
  State.tasks (Sys.store (settle_at server 0 (settle_at server 0 σ)))
    = alone (Op_Delete (IdNum 2)) ∧
  State.tasks (Sys.store (settle_at server 0 (settle_at server 1 σ)))
    = alone (Op_Delete (IdNum 1)).
Proof.
  apply (overlapping_last_settled_wins server
           (Op_Delete (IdNum 1)) (Op_Delete (IdNum 2)) typing_blanks
           (Malformed (Error (str "Unexpected end of JSON input")))
           (Malformed (Error (str "Unexpected end of JSON input"))));
    reflexivity.
Defined.

Lemma at_most_one_list_or_create_witness :
  outstanding (Sys.pending ticked) ≤ 1.
Proof. apply (at_most_one_list_or_create ticked reachable_ticked). Defined.

Lemma page_events_target_held_tasks_witness :
  let item := render_item (State.tasks typing_blanks) task_a in
  (∃ t, t ∈ State.tasks typing_blanks ∧
        Task.id t = key item ∧ Task.completed t = checked item) ∧
  run server (checkbox_onChange item) typing_blanks
    = perform server (Op_Toggle (key item) (checked item)) typing_blanks ∧
  run server (delete_onClick item) typing_blanks
    = perform server (Op_Delete (key item)) typing_blanks ∧
  (sent (run server (checkbox_onChange item) typing_blanks)).*1
    = [mkRequest PUT (api_tasks_id (IdNum 1)) json_headers
         (Some (CompletedBody true))].
Proof.
  apply (page_events_target_held_tasks server typing_blanks
           (render_item (State.tasks typing_blanks) <$> State.tasks typing_blanks)
           (render_item (State.tasks typing_blanks) task_a));
    [reflexivity|left].
Defined.

(** A rejection with an empty message: the Delete fails, the error is
    stored, and no banner shows. *)
Lemma banner_after_operation_witness :
  error_banner (App (Sys.store
    (launch (handler (Op_Delete (IdNum 1)) typing_milk) submitted))) = None ∧
  error_banner
    (App (final (respond silent (Op_Delete (IdNum 1)) typing_milk typing_milk)))
    = None.
Proof.
  apply (banner_after_operation silent (Op_Delete (IdNum 1)) typing_milk
           typing_milk submitted (Unreachable (Error []))).
  reflexivity.
Defined.

(** A banner can be up while a request is outstanding: a Delete and a
    Toggle of task 1 overlap, the Toggle is refused first, and its message
    shows while the Delete is still on its way. *)
Example banner_while_outstanding_example :
  let σ := both_started (Op_Delete (IdNum 1)) (Op_Toggle (IdNum 1) false) quiet in
  let σ1 := settle_at refusing 1 σ in
  error_banner (App (Sys.store σ1)) = Some (str "Failed to update task") ∧
  (λ p, wire (call p)) <$> Sys.pending σ1
    = [mkRequest DELETE (api_tasks_id (IdNum 1)) [] None].
Proof. split; reflexivity. Qed.

Lemma page_step_is_step_witness :
  step typed submitted ∧ (reachable typed → reachable submitted).
Proof. apply (page_step_is_step typed submitted). by apply page_submit. Defined.
